(** * Session pool and backup/restore of [app.py]

    A shallow embedding of the account-scoped core of [src/app.py]:
    [get_client] (the client pool), [add_account] (name derivation and the
    background login task), [create_backup], [restore_backup] and
    [delete_account], then the endpoints built on the pool that have a
    behaviour of their own ([list_accounts], [bulk_status],
    [change_profile_pic]), followed by the properties the specification
    states about them and by further properties read off the code.  The
    remaining endpoints ([account_info], [follow], [unfollow], [like],
    [comment], [edit_profile]) fetch a handle with [get_client] and forward
    to the library; they are not modelled.

    Modelling choices.
    - The module-level dictionaries [clients] and [accounts] are finite maps
      keyed by account name.  [SESSIONS_DIR], [BACKUP_DIR] and [/tmp] are
      finite maps from the name of an entry to the file's contents: the
      directories are flat (regular files only).
    - A file name that a client supplies (the name of an upload, the names of
      the entries of an archive, the name a login is saved under, the name of
      a picture) is joined into a path by the program, and the path is
      followed component by component ([PyPath]): it leads to an entry of
      one of the directories, to no file at all (the call raises), or to a
      place the state does not hold.  A run that writes to such a place ends
      [Beyond] the model, and nothing is said about it.  [get_client] and
      [delete_account] take the account name as one path segment, as a route
      delivers it: for them [os.path.join(SESSIONS_DIR, f"{n}.json")] is the
      entry [n.json].
    - A string is the UTF-8 encoding of the Python string; where the program
      counts characters ([biography[:100]]) the model counts the bytes that
      start a character.
    - [os.listdir] returns the names of a directory in an arbitrary order;
      the model enumerates the map, and statements about listings are made up
      to permutation.
    - An [instagrapi.Client] object is a record of the attributes [app.py]
      sets on it, plus an object identity drawn from an allocation counter.
    - Everything the program cannot decide by itself (whether the liveness
      probe answers, whether a session file can be read and parsed, whether a
      login succeeds, how many bytes an archive takes, whether standard
      output can encode a line) is an oracle of the environment [Env].
    - An upload is its bytes together with the entries [zipfile.ZipFile]
      finds in them, if it accepts them.  An entry whose data cannot be
      extracted carries the reason, because [extractall] writes the entries
      one after the other.  [extractall] takes each name of the listing,
      looks up the last entry of that name, and writes it under the name
      without its empty, [.] and [..] components; an entry that needs a
      sub-directory is [Beyond] the model.
    - Exceptions carry no state of their own: every operation returns the
      state it reached together with either a value or the exception, so what
      a failing call leaves behind is visible. *)

From Stdlib Require Import Strings.Byte Strings.Ascii ZArith.
From stdpp Require Import gmap strings.

Local Open Scope string_scope.

(** ** Python string methods used by the program *)

Module PyStr.

(** [s.startswith(p)] *)
Fixpoint startswith (p s : string) : bool :=
  match p, s with
  | EmptyString, _ => true
  | String a p', String b s' => if Ascii.eqb a b then startswith p' s' else false
  | String _ _, EmptyString => false
  end.

(** [s.endswith(suf)] *)
Definition endswith (s suf : string) : bool :=
  let n := String.length s in
  let k := String.length suf in
  if (k <=? n)%nat then String.eqb (String.substring (n - k) k s) suf else false.

(** The scan of [s.replace(old, new)] for a non-empty [old]: occurrences are
    replaced from left to right and do not overlap.  [skip] counts the
    characters of a match that remain to be dropped. *)
Fixpoint replace_from (old new : string) (skip : nat) (s : string) : string :=
  match s with
  | EmptyString => EmptyString
  | String c s' =>
      match skip with
      | S k => replace_from old new k s'
      | O =>
          if startswith old s
          then new +:+ replace_from old new (String.length old - 1) s'
          else String c (replace_from old new 0 s')
      end
  end.

(** [s.replace("", new)] puts [new] before every character and at the end. *)
Fixpoint intersperse_all (new s : string) : string :=
  match s with
  | EmptyString => new
  | String c s' => new +:+ String c (intersperse_all new s')
  end.

(** [s.replace(old, new)] *)
Definition replace (old new s : string) : string :=
  match old with
  | EmptyString => intersperse_all new s
  | String _ _ => replace_from old new 0 s
  end.

(** [s.split(sep)[0]] for a non-empty [sep]: the text before the first
    occurrence of [sep], or all of [s] when there is none. *)
Fixpoint split_head (sep s : string) : string :=
  match s with
  | EmptyString => EmptyString
  | String c s' =>
      if startswith sep s then EmptyString else String c (split_head sep s')
  end.

(** Character-wise substitution, the reading of "every [a] replaced by [b]". *)
Fixpoint map_chars (f : ascii -> ascii) (s : string) : string :=
  match s with
  | EmptyString => EmptyString
  | String c s' => String (f c) (map_chars f s')
  end.

End PyStr.

(** ** Data *)

(** The contents of a file: raw bytes. *)
Abbreviation Blob := (list byte).

(** An [instagrapi.Client] object, with the attributes [app.py] touches. *)
Record Client := mkClient {
  obj_id : nat;                  (* identity of the Python object *)
  delay_range : list Z;
  user_agent : option string;    (* [None]: the agent the library derives itself *)
  cl_proxy : option string;
  settings : option Blob         (* the session loaded by [load_settings] *)
}.

(** A value of the [accounts] dictionary. *)
Record AccountMeta := mkMeta {
  acc_email : string;
  acc_proxy : option string;
  acc_created : string
}.

(** What extracting one member of a zip file meets. *)
Inductive Payload :=
| Stored (data : Blob)           (* the member extracts to [data] *)
| BadHeader                      (* opening the member raises, nothing is written *)
| BadCRC (written : Blob).       (* the check fails after [written] reached the target *)

Record Member := mkMember {
  filename : string;
  payload : Payload
}.

(** The contents of a file of [BACKUP_DIR], as [zipfile.ZipFile] sees it. *)
Inductive ArchiveFile :=
| ZipOf (members : list Member)
| NotZip (raw : Blob).

Inductive Exn :=
| HTTPException (status : Z) (detail : string)
| BadZipFile
| OSError (path : string)
| JSONDecodeError
| ClientError
| ValueError
| KeyError
| UnicodeEncodeError.

(** An uploaded file: its bytes, and the members [zipfile.ZipFile] finds in
    them when it accepts them as an archive. *)
Record Upload := mkUpload {
  upload_bytes : Blob;
  upload_members : option (list Member)
}.

(** The upload as a file of [BACKUP_DIR]. *)
Definition archive_of (up : Upload) : ArchiveFile :=
  match upload_members up with
  | Some members => ZipOf members
  | None => NotZip (upload_bytes up)
  end.

(** The request body of [/accounts/add]. *)
Record AddAccount := mkAddAccount {
  email : string;
  password : string;
  proxy : option string;
  name : option string
}.

(** The JSON bodies the endpoints answer with. *)
Record AddResponse := mkAddResponse {
  add_message : string;
  account_name_of : string
}.

Record BackupResponse := mkBackupResponse {
  backup : string;
  backup_size : Z              (* the key ["size"] *)
}.

Record RestoreResponse := mkRestoreResponse {
  restored_accounts : list string;
  count : nat
}.

Record DeleteResponse := mkDeleteResponse {
  success : bool;
  del_message : string
}.

(** The mutable world of the process: the two dictionaries, the two
    directories and the object allocator. *)
Record State := mkState {
  clients : gmap string Client;
  accounts : gmap string AccountMeta;
  sessions : gmap string Blob;
  backups : gmap string ArchiveFile;
  next_id : nat
}.

(** The environment the program runs in. *)
Record Env := mkEnv {
  (* [cl.get_timeline_feed()]: the exception it raises, [None] when it returns *)
  get_timeline_feed : Client -> option Exn;
  (* the file [SESSIONS_DIR/f] can be opened and read *)
  read_ok : string -> bool;
  (* the contents parse as a settings document *)
  json_ok : Blob -> bool;
  (* [cl.login(email, password)] with the given proxy, then the dumped settings *)
  login : string -> string -> option string -> option Blob;
  (* [os.path.getsize] of a written zip file *)
  zip_size : list Member -> Z;
  (* [print] of the failure line of [create_session] for this name and
     exception returns: standard output can encode the text *)
  print_ok : string -> Exn -> bool
}.

Definition set_clients (f : gmap string Client -> gmap string Client)
  (st : State) : State :=
  mkState (f (clients st)) (accounts st) (sessions st) (backups st) (next_id st).

Definition set_accounts (f : gmap string AccountMeta -> gmap string AccountMeta)
  (st : State) : State :=
  mkState (clients st) (f (accounts st)) (sessions st) (backups st) (next_id st).

Definition set_sessions (f : gmap string Blob -> gmap string Blob)
  (st : State) : State :=
  mkState (clients st) (accounts st) (f (sessions st)) (backups st) (next_id st).

Definition set_backups (f : gmap string ArchiveFile -> gmap string ArchiveFile)
  (st : State) : State :=
  mkState (clients st) (accounts st) (sessions st) (f (backups st)) (next_id st).

(** ** Computations: state passing with exceptions *)

(** How a call ends: with a value, with an exception, or [Beyond] the model,
    when it writes to a place the state does not hold (outside the two
    directories, or into a sub-directory it creates).  Of a run that ends
    [Beyond] the model says nothing. *)
Inductive Result (A : Type) :=
| Return (a : A)
| Raise (e : Exn)
| Beyond.
Arguments Return {A} a.
Arguments Raise {A} e.
Arguments Beyond {A}.

Definition M (A : Type) : Type := State -> Result A * State.

Definition ret {A} (a : A) : M A := fun st => (Return a, st).

Definition bind {A B} (m : M A) (k : A -> M B) : M B :=
  fun st =>
    match m st with
    | (Return a, st') => k a st'
    | (Raise e, st') => (Raise e, st')
    | (Beyond, st') => (Beyond, st')
    end.

Definition raise {A} (e : Exn) : M A := fun st => (Raise e, st).

Definition beyond {A} : M A := fun st => (Beyond, st).

Definition get : M State := fun st => (Return st, st).

Definition modify (f : State -> State) : M unit := fun st => (Return tt, f st).

(** [try: m except: h] with a bare [except]. *)
Definition try_except {A} (m : M A) (h : M A) : M A :=
  fun st =>
    match m st with
    | (Return a, st') => (Return a, st')
    | (Raise _, st') => h st'
    | (Beyond, st') => (Beyond, st')
    end.

(** [try: m except Exception as e: h e] *)
Definition try_except_as {A} (m : M A) (h : Exn -> M A) : M A :=
  fun st =>
    match m st with
    | (Return a, st') => (Return a, st')
    | (Raise e, st') => h e st'
    | (Beyond, st') => (Beyond, st')
    end.

Declare Scope py_scope.
Delimit Scope py_scope with py.
Notation "'let*' x := m 'in' k" := (bind m (fun x => k))
  (at level 10, x name, m at level 100, k at level 200) : py_scope.
Local Open Scope py_scope.

(** ** Paths

    The process runs in a directory that holds [sessions] and [backups],
    both flat; [/tmp] is flat too.  A path is followed component by
    component from the root or from the working directory. *)

(** [c in s] for a character. *)
Fixpoint occurs (c : ascii) (s : string) : bool :=
  match s with
  | EmptyString => false
  | String a rest => Ascii.eqb a c || occurs c rest
  end.

Inductive Place := Root | TmpDir | Cwd | SessionsDir | BackupsDir.

(** Where a path leads when a file is opened for writing. *)
Inductive Target :=
| FileIn (d : Place) (f : string)  (* the entry [f] of the flat directory [d] *)
| NotAFile                         (* a directory, or through a file: [OSError] *)
| BadName                          (* an embedded null character: [ValueError] *)
| Elsewhere.                       (* a place the model does not hold *)

Module PyPath.

(** [s.split('/')] *)
Fixpoint split_slash (s : string) : list string :=
  match s with
  | EmptyString => [EmptyString]
  | String c s' =>
      if Ascii.eqb c "/" then EmptyString :: split_slash s'
      else match split_slash s' with
           | [] => [String c EmptyString]
           | x :: xs => String c x :: xs
           end
  end.

(** [os.path.join(a, b)] *)
Definition join (a b : string) : string :=
  if PyStr.startswith "/" b then b
  else if String.eqb a "" || PyStr.endswith a "/" then a +:+ b
  else a +:+ "/" +:+ b.

(** The components that name no entry: the empty one and [.] *)
Definition is_dot (c : string) : bool := String.eqb c "" || String.eqb c ".".

Definition is_dotdot (c : string) : bool := String.eqb c "..".

(** Following the components [comps] from the directory [pos]. *)
Fixpoint walk (pos : Place) (comps : list string) : Target :=
  match comps with
  | [] => NotAFile
  | c :: rest =>
      if is_dot c then walk pos rest
      else if is_dotdot c then
        match pos with
        | Root | TmpDir => walk Root rest
        | Cwd => Elsewhere
        | SessionsDir | BackupsDir => walk Cwd rest
        end
      else
        match pos with
        | Root => if String.eqb c "tmp" then walk TmpDir rest else Elsewhere
        | Cwd =>
            if String.eqb c "sessions" then walk SessionsDir rest
            else if String.eqb c "backups" then walk BackupsDir rest
            else Elsewhere
        | TmpDir =>
            match rest with
            | [] => FileIn TmpDir c
            | _ :: _ => Elsewhere
            end
        | SessionsDir | BackupsDir =>
            match rest with
            | [] => FileIn pos c
            | _ :: _ => NotAFile
            end
        end
  end.

(** [open(path, "wb")]: where the bytes go. *)
Definition resolve (path : string) : Target :=
  if occurs Ascii.zero path then BadName
  else if PyStr.startswith "/" path then walk Root (split_slash path)
  else walk Cwd (split_slash path).

End PyPath.

Definition SESSIONS_DIR : string := "sessions".

Definition BACKUP_DIR : string := "backups".

(** ** The program *)

Section Program.

Variable E : Env.

(** [os.path.join(SESSIONS_DIR, f"{account_name}.json")] *)
Definition session_file (account_name : string) : string :=
  account_name +:+ ".json".

(** [Client()]: a new object with the library's defaults. *)
Definition new_client : M Client :=
  fun st =>
    (Return (mkClient (next_id st) [] None None None),
     mkState (clients st) (accounts st) (sessions st) (backups st) (S (next_id st))).

(** [cl.load_settings(session_path)]: read the file and parse it.  The
    library then initialises the handle from the loaded settings, the user
    agent included: the agent set before the load does not survive it. *)
Definition load_settings (session_path : string) (cl : Client) : M Client :=
  let* st := get in
  match sessions st !! session_path with
  | None => raise (OSError session_path)
  | Some blob =>
      if negb (read_ok E session_path) then raise (OSError session_path)
      else if negb (json_ok E blob) then raise JSONDecodeError
      else ret (mkClient (obj_id cl) (delay_range cl) None (cl_proxy cl) (Some blob))
  end.

(** [accounts[account_name].get("proxy")] when it is truthy. *)
Definition truthy_proxy (st : State) (account_name : string) : option string :=
  match accounts st !! account_name with
  | Some meta =>
      match acc_proxy meta with
      | Some p => if String.eqb p "" then None else Some p
      | None => None
      end
  | None => None
  end.

(** Lines 55-68 of [get_client]: build a handle from the session file. *)
Definition build_client (account_name : string) : M Client :=
  let session_path := session_file account_name in
  let* st := get in
  match sessions st !! session_path with
  | None =>
      raise (HTTPException 404 ("Session " +:+ account_name +:+ ".json missing"))
  | Some _ =>
      let* cl := new_client in
      let cl := mkClient (obj_id cl) [2; 6]%Z (user_agent cl) (cl_proxy cl) (settings cl) in
      let cl := mkClient (obj_id cl) (delay_range cl)
                  (Some "Mozilla/5.0 (Windows NT 10.0; Win64; x64) AppleWebKit/537.36")
                  (cl_proxy cl) (settings cl) in
      let cl := match truthy_proxy st account_name with
                | Some p => mkClient (obj_id cl) (delay_range cl) (user_agent cl) (Some p) (settings cl)
                | None => cl
                end in
      let* cl := load_settings session_path cl in
      let* _ := modify (set_clients (insert account_name cl)) in
      ret cl
  end.

(** [clients[account_name].get_timeline_feed()] *)
Definition probe (cl : Client) : M unit :=
  match get_timeline_feed E cl with
  | None => ret tt
  | Some e => raise e
  end.

Definition get_client (account_name : string) : M Client :=
  let* st := get in
  match clients st !! account_name with
  | Some cl =>
      try_except
        (let* _ := probe cl in ret cl)
        (let* _ := modify (set_clients (delete account_name)) in
         build_client account_name)
  | None => build_client account_name
  end.

(** *** [add_account] *)

(** [req.name or req.email.split('@')[0].replace('+', '_').replace('.', '_')] *)
Definition derive_name (req : AddAccount) : string :=
  let derived :=
    PyStr.replace "." "_" (PyStr.replace "+" "_" (PyStr.split_head "@" (email req))) in
  match name req with
  | Some n => if String.eqb n "" then derived else n
  | None => derived
  end.

(** [if req.proxy:] *)
Definition truthy (o : option string) : option string :=
  match o with
  | Some p => if String.eqb p "" then None else Some p
  | None => None
  end.

(** [cl.dump_settings(session_path)]: the session of the login goes where
    the path leads. *)
Definition dump_settings (session_path : string) (dumped : Blob) : M unit :=
  match PyPath.resolve session_path with
  | FileIn SessionsDir f => modify (set_sessions (insert f dumped))
  | NotAFile => raise (OSError session_path)
  | BadName => raise ValueError
  | _ => beyond
  end.

(** The background task [create_session]; [now] is
    [datetime.now().isoformat()] at the time it runs.  Whatever the [try]
    raises is caught and printed; the print raises itself when standard
    output cannot encode the line. *)
Definition create_session (req : AddAccount) (name : string) (now : string) : M unit :=
  try_except_as
    (let* cl := new_client in
     match login E (email req) (password req) (truthy (proxy req)) with
     | None => raise ClientError
     | Some dumped =>
         let session_path := PyPath.join SESSIONS_DIR (name +:+ ".json") in
         let* _ := dump_settings session_path dumped in
         modify (set_accounts (insert name (mkMeta (email req) (proxy req) now)))
     end)
    (fun e => if print_ok E name e then ret tt else raise UnicodeEncodeError).

(** The endpoint answers at once and hands [create_session] to the
    background tasks. *)
Definition add_account (req : AddAccount) : AddResponse * (string -> M unit) :=
  let name := derive_name req in
  (mkAddResponse ("Creating " +:+ name +:+ "...") name, create_session req name).

(** *** Listing the session directory *)

(** [os.listdir(SESSIONS_DIR)] *)
Definition listdir {A} (dir : gmap string A) : list string :=
  (map_to_list dir).*1.

(** [[f.replace('.json', '') for f in os.listdir(SESSIONS_DIR) if f.endswith('.json')]] *)
Definition session_names (dir : gmap string Blob) : list string :=
  List.map (PyStr.replace ".json" "")
    (List.filter (fun f => PyStr.endswith f ".json") (listdir dir)).

(** *** [create_backup] *)

(** The loop of [zf.write(os.path.join(SESSIONS_DIR, session_file), session_file)]
    over the directory listing; [zf] holds the members written so far.  A file
    that cannot be read raises out of the loop. *)
Fixpoint zip_write_each (zf : list Member) (files : list (string * Blob))
  : list Member * Result unit :=
  match files with
  | [] => (zf, Return tt)
  | (session_file, data) :: rest =>
      if read_ok E session_file
      then zip_write_each (zf ++ [mkMember session_file (Stored data)]) rest
      else (zf, Raise (OSError session_file))
  end.

(** [timestamp] is [datetime.now().strftime("%Y%m%d_%H%M%S")].  Leaving the
    [with zipfile.ZipFile(...)] block closes the archive, on the normal and on
    the exceptional path alike, and the file then holds the members written. *)
Definition create_backup (timestamp : string) : M BackupResponse :=
  let backup_file := "backup_" +:+ timestamp +:+ ".zip" in
  let* st := get in
  let '(zf, r) := zip_write_each [] (map_to_list (sessions st)) in
  let* _ := modify (set_backups (insert backup_file (ZipOf zf))) in
  match r with
  | Raise e => raise e
  | Return _ => ret (mkBackupResponse backup_file (zip_size E zf))
  | Beyond => beyond
  end.

(** *** [restore_backup] *)

(** [zipfile.ZipFile(backup_path, 'r')] *)
Definition open_zip (file : ArchiveFile) : M (list Member) :=
  match file with
  | ZipOf members => ret members
  | NotZip _ => raise BadZipFile
  end.

(** [zf.getinfo(name)]: the last entry of the archive with that name. *)
Fixpoint getinfo (members : list Member) (name : string) : option Member :=
  match members with
  | [] => None
  | m :: rest =>
      match getinfo rest name with
      | Some m' => Some m'
      | None => if String.eqb (filename m) name then Some m else None
      end
  end.

(** The path components [zipfile] keeps of a member name: the empty ones,
    [.] and [..] are dropped. *)
Definition arc_components (name : string) : list string :=
  List.filter (fun c => negb (PyPath.is_dot c || PyPath.is_dotdot c))
    (PyPath.split_slash name).

(** The file of [SESSIONS_DIR] a member is extracted to, when it is a file
    entry whose name keeps exactly one component. *)
Definition member_target (m : Member) : option string :=
  if occurs Ascii.zero (filename m) || PyStr.endswith (filename m) "/" then None
  else match arc_components (filename m) with
       | [f] => Some f
       | _ => None
       end.

(** Extraction of one member into [SESSIONS_DIR].  A directory entry or a
    name of several components makes a sub-directory: beyond the model. *)
Definition extract (m : Member) : M unit :=
  match member_target m with
  | None => beyond
  | Some f =>
      match payload m with
      | Stored data => modify (set_sessions (insert f data))
      | BadHeader => raise BadZipFile
      | BadCRC written =>
          let* _ := modify (set_sessions (insert f written)) in
          raise BadZipFile
      end
  end.

(** The loop of [extractall] over [zf.namelist()]: every name is looked up
    again with [getinfo]. *)
Fixpoint extract_names (zf : list Member) (names : list string) : M unit :=
  match names with
  | [] => ret tt
  | name :: rest =>
      match getinfo zf name with
      | Some m => let* _ := extract m in extract_names zf rest
      | None => raise KeyError
      end
  end.

(** [zf.extractall(SESSIONS_DIR)].  [filename] is the name as [ZipInfo]
    holds it, which has no null character; an archive listed with one is
    beyond the model. *)
Definition extractall (members : list Member) : M unit :=
  if existsb (fun m => occurs Ascii.zero (filename m)) members then beyond
  else extract_names members (filename <$> members).

(** [with open(backup_path, "wb") as f: shutil.copyfileobj(backup_file.file, f)] *)
Definition write_upload (backup_path : string) (upload : Upload) : M unit :=
  match PyPath.resolve backup_path with
  | FileIn BackupsDir f => modify (set_backups (insert f (archive_of upload)))
  | FileIn SessionsDir f => modify (set_sessions (insert f (upload_bytes upload)))
  | NotAFile => raise (OSError backup_path)
  | BadName => raise ValueError
  | _ => beyond
  end.

(** The archive is read from [backup_path] while its entries are written.
    An upload stored in the session directory under the name one of its own
    entries is extracted to is overwritten while it is read. *)
Definition overwrites_itself (backup_path : string) (members : list Member) : bool :=
  match PyPath.resolve backup_path with
  | FileIn SessionsDir f =>
      existsb (fun m => match member_target m with
                        | Some g => String.eqb g f
                        | None => false
                        end) members
  | _ => false
  end.

(** [upload_name] is [backup_file.filename], [upload] the uploaded file.  An
    archive that is overwritten while it is read is beyond the model. *)
Definition restore_backup (upload_name : string) (upload : Upload) : M RestoreResponse :=
  let backup_path := PyPath.join BACKUP_DIR upload_name in
  let* _ := write_upload backup_path upload in
  let* zf := open_zip (archive_of upload) in
  let* _ := if overwrites_itself backup_path zf then beyond else extractall zf in
  let* _ := modify (set_clients (fun _ => ∅)) in
  let* st := get in
  let restored := session_names (sessions st) in
  ret (mkRestoreResponse restored (length restored)).

(** *** [delete_account] *)

Definition delete_account (account : string) : M DeleteResponse :=
  let session_path := session_file account in
  let* st := get in
  match sessions st !! session_path with
  | Some _ =>
      let* _ := modify (set_sessions (delete session_path)) in
      let* _ := modify (set_clients (delete account)) in
      let* _ := modify (set_accounts (delete account)) in
      ret (mkDeleteResponse true (account +:+ " deleted"))
  | None => raise (HTTPException 404 "Account not found")
  end.

End Program.

(** ** The endpoints around the pool *)

(** A byte of the form [10xxxxxx]: it continues a character of UTF-8. *)
Definition is_continuation (c : ascii) : bool :=
  match c with
  | Ascii _ _ _ _ _ _ b6 b7 => b7 && negb b6
  end.

(** [s[:n]]: the first [n] characters.  A string of the model is the UTF-8
    encoding of the Python string, so a character is a byte that is not a
    continuation byte, together with the continuation bytes after it. *)
Fixpoint str_take (n : nat) (s : string) : string :=
  match s with
  | EmptyString => EmptyString
  | String c s' =>
      if is_continuation c then String c (str_take n s')
      else match n with
           | O => EmptyString
           | S k => String c (str_take k s')
           end
  end.

(** The account record of the library, with the attributes the listings
    read.  A biography of [None] reads as the empty string: both are falsy. *)
Record AccountInfo := mkInfo {
  username : string;
  follower_count : Z;
  following_count : Z;
  media_count : Z;
  biography : string
}.

(** Library calls on a handle, beyond the probe. *)
Record Api := mkApi {
  (* [cl.account_info()]: the record, or the exception it raises *)
  cl_account_info : Client -> Exn + AccountInfo;
  (* [cl.account_update_profile_pic(path)] for a file holding these bytes *)
  cl_update_profile_pic : Client -> Blob -> option Exn;
  (* [str(e)] *)
  str_of_exn : Exn -> string
}.

(** A value of the [status] dictionary of [list_accounts]. *)
Inductive AccountStatus :=
| Active (username : string) (followers following posts : Z) (bio : string)
| Inactive.

Record ListResponse := mkListResponse {
  total : nat;
  statuses : gmap string AccountStatus     (* the key ["accounts"] *)
}.

(** A value of the [results] dictionary of [bulk_status]. *)
Inductive BulkStatus :=
| BulkActive (username : string) (followers : Z)
| BulkError (error : string).

Record PicResponse := mkPicResponse {
  pic_success : bool;
  pic_message : string
}.

Section Endpoints.

Variable E : Env.
Variable A : Api.

(** [info.biography[:100] + "..." if info.biography else ""] *)
Definition bio_preview (biography : string) : string :=
  if String.eqb biography "" then "" else str_take 100 biography +:+ "...".

(** [info = cl.account_info()] *)
Definition fetch_info (cl : Client) : M AccountInfo :=
  match cl_account_info A cl with
  | inr info => ret info
  | inl e => raise e
  end.

(** The body of the loop of [list_accounts], lines 95-107. *)
Definition account_status (acc : string) : M AccountStatus :=
  try_except
    (let* cl := get_client E acc in
     let* info := fetch_info cl in
     ret (Active (username info) (follower_count info) (following_count info)
                 (media_count info) (bio_preview (biography info))))
    (ret Inactive).

(** [for acc in sessions: status[acc] = ...] *)
Fixpoint status_loop (accs : list string) (status : gmap string AccountStatus)
  : M (gmap string AccountStatus) :=
  match accs with
  | [] => ret status
  | acc :: rest =>
      let* entry := account_status acc in
      status_loop rest (<[acc := entry]> status)
  end.

Definition list_accounts : M ListResponse :=
  let* st := get in
  let sessions := session_names (sessions st) in
  let* status := status_loop sessions ∅ in
  ret (mkListResponse (length sessions) status).

(** The body of the loop of [bulk_status], lines 196-205. *)
Definition bulk_entry (acc : string) : M BulkStatus :=
  try_except_as
    (let* cl := get_client E acc in
     let* info := fetch_info cl in
     ret (BulkActive (username info) (follower_count info)))
    (fun e => ret (BulkError (str_of_exn A e))).

Fixpoint bulk_loop (accs : list string) (results : gmap string BulkStatus)
  : M (gmap string BulkStatus) :=
  match accs with
  | [] => ret results
  | acc :: rest =>
      let* entry := bulk_entry acc in
      bulk_loop rest (<[acc := entry]> results)
  end.

Definition bulk_status (accounts : list string) : M (gmap string BulkStatus) :=
  bulk_loop accounts ∅.

(** [change_profile_pic]: [tmp] is the directory [/tmp], [filename] is
    [image.filename] and [image] the uploaded bytes.  The handle is fetched
    first; the upload is then written where [f"/tmp/{filename}"] leads,
    handed to the library, and removed by the [finally] on both ways out. *)
Definition change_profile_pic (account filename : string) (image : Blob)
  (tmp : gmap string Blob) (st : State)
  : Result PicResponse * State * gmap string Blob :=
  match get_client E account st with
  | (Raise e, st') => (Raise e, st', tmp)
  | (Beyond, st') => (Beyond, st', tmp)
  | (Return cl, st') =>
      let img_path := "/tmp/" +:+ filename in
      match PyPath.resolve img_path with
      | FileIn TmpDir f =>
          let tmp := <[f := image]> tmp in
          let r := match cl_update_profile_pic A cl image with
                   | None => Return (mkPicResponse true "Profile picture updated")
                   | Some e => Raise e
                   end in
          (r, st', delete f tmp)
      | NotAFile => (Raise (OSError img_path), st', tmp)
      | BadName => (Raise ValueError, st', tmp)
      | _ => (Beyond, st', tmp)
      end
  end.

End Endpoints.

(** One call of an endpoint or of the background task, as a step of the
    process state. *)
Inductive step (E : Env) (A : Api) : State -> State -> Prop :=
| step_get_client n st :
    step E A st (get_client E n st).2
| step_create_session req n now st :
    step E A st (create_session E req n now st).2
| step_list_accounts st :
    step E A st (list_accounts E A st).2
| step_bulk_status accs st :
    step E A st (bulk_status E A accs st).2
| step_change_profile_pic account filename image tmp st :
    step E A st (change_profile_pic E A account filename image tmp st).1.2
| step_create_backup ts st :
    step E A st (create_backup E ts st).2
| step_restore_backup nm up st :
    step E A st (restore_backup nm up st).2
| step_delete_account n st :
    step E A st (delete_account n st).2.

(** ** Vocabulary of the statements *)

(** The object allocator is ahead of every cached handle. *)
Definition pool_wf (st : State) : Prop :=
  forall n cl, clients st !! n = Some cl -> obj_id cl < next_id st.

(** The handle [build_client] makes for [n] from the blob [blob]: the
    attributes set before the load that survive it, and the loaded session. *)
Definition built_client (st : State) (n : string) (blob : Blob) : Client :=
  mkClient (next_id st) [2; 6]%Z None (truthy_proxy st n) (Some blob).

(** No usable handle is cached for [n]: none at all, or one whose probe raises. *)
Definition not_served (E : Env) (st : State) (n : string) : Prop :=
  match clients st !! n with
  | None => True
  | Some cl => is_Some (get_timeline_feed E cl)
  end.

(** The specification's words: the part of the email before ['@'] ... *)
Fixpoint local_part (email : string) : string :=
  match email with
  | EmptyString => EmptyString
  | String c rest => if Ascii.eqb c "@" then EmptyString else String c (local_part rest)
  end.

(** ... with ['+'] and ['.'] normalised to ['_']. *)
Definition normalize_char (c : ascii) : ascii :=
  if Ascii.eqb c "+" || Ascii.eqb c "." then "_"%char else c.




(** *** Concrete environments and states

    An environment in which everything answers ... *)
Definition E_calm : Env :=
  mkEnv (fun _ => None) (fun _ => true) (fun _ => true) (fun _ _ _ => None) (fun _ => 22%Z) (fun _ _ => true).



Definition bob_handle : Client := mkClient 0 [2; 6]%Z None None (Some [x7b; x7d]).

(** [bob] is cached and has a session file. *)
Definition st_cached : State :=
  mkState {["bob" := bob_handle]} ∅ {["bob.json" := [x7b; x7d]]} ∅ 1.

(** [bob] is cached but his session file is gone. *)
Definition st_stale : State :=
  mkState {["bob" := bob_handle]} ∅ ∅ ∅ 1.

(** Two session files and a stray file, nothing cached. *)
Definition st_two : State :=
  mkState ∅ ∅
    (<["a.json" := [x01]]> (<["b.json" := [x02]]> (<["c.txt" := [x03]]> ∅))) ∅ 0.






(** No two names of the pool hold the same object. *)
Definition pool_distinct (st : State) : Prop :=
  forall m n c d,
    clients st !! m = Some c -> clients st !! n = Some d ->
    obj_id c = obj_id d -> m = n.

(** A name an entry of a directory can have. *)
Definition valid_name (f : string) : Prop :=
  occurs Ascii.zero f = false /\ occurs "/" f = false
  /\ f <> "" /\ f <> "." /\ f <> "..".


(** Extracting the entries of a list one after the other. *)
Fixpoint extract_list (ms : list Member) : M unit :=
  match ms with
  | [] => ret tt
  | m :: rest => let* _ := extract m in extract_list rest
  end.

(** The entries [extractall] extracts, in order: for each name of the
    listing, the last entry with that name. *)
Definition resolved (ms : list Member) : list Member :=
  omap (getinfo ms) (filename <$> ms).

(** The file an entry extracts to, when it extracts whole. *)
Definition member_file (m : Member) : option (string * Blob) :=
  match member_target m, payload m with
  | Some f, Stored data => Some (f, data)
  | _, _ => None
  end.

(** The files a list of entries extracts to, when each extracts whole. *)
Fixpoint files_of (ms : list Member) : option (list (string * Blob)) :=
  match ms with
  | [] => Some []
  | m :: rest =>
      match member_file m, files_of rest with
      | Some fd, Some fds => Some (fd :: fds)
      | _, _ => None
      end
  end.



(** The upload's file name stays in the backup area. *)
Definition plain_upload_name (nm : string) : Prop :=
  PyPath.resolve (PyPath.join BACKUP_DIR nm) = FileIn BackupsDir nm.


(** The specification's words: the account persisted by a file of the
    Session Store is the file's name without its [.json]. *)
Definition account_of_file (f : string) : option string :=
  if PyStr.endswith f ".json"
  then Some (String.substring 0 (String.length f - 5) f)
  else None.


(** The number of characters of a string: of bytes that start one. *)
Fixpoint codepoints (s : string) : nat :=
  match s with
  | EmptyString => 0
  | String c rest => (if is_continuation c then 0 else 1) + codepoints rest
  end.






(** An environment in which the login of everybody succeeds with a
    two-byte session. *)
Definition E_login : Env :=
  mkEnv (fun _ => None) (fun _ => true) (fun _ => true)
        (fun _ _ _ => Some [x7b; x7d]) (fun _ => 22%Z) (fun _ _ => true).

(** A library whose calls all answer. *)
Definition A_calm : Api :=
  mkApi (fun _ => inr (mkInfo "bob" 10 20 3 "hello")) (fun _ _ => None) (fun _ => "error").

(** [bob] has a session file and no handle yet. *)
Definition st_fresh : State :=
  mkState ∅ ∅ {["bob.json" := [x7b; x7d]]} ∅ 0.

(** What one [get_client n] may do to the state: nothing outside the pool and
    the allocator, and in the pool at most the entry of [n], which is kept,
    dropped, or replaced by a newly allocated object. *)
Definition pool_step (n : string) (st st' : State) : Prop :=
  sessions st' = sessions st /\ accounts st' = accounts st
  /\ backups st' = backups st /\ next_id st <= next_id st'
  /\ (clients st' = clients st
      \/ clients st' = delete n (clients st)
      \/ exists cl, obj_id cl = next_id st /\ next_id st < next_id st'
                    /\ clients st' = <[n := cl]> (clients st)).

(** The invariant of the pool. *)
Definition pool_inv (st : State) : Prop := pool_wf st /\ pool_distinct st.

(** A call that changes at most the pool and the allocator, and keeps the
    invariant of the pool. *)
Definition pool_only (st st' : State) : Prop :=
  sessions st' = sessions st /\ accounts st' = accounts st
  /\ backups st' = backups st /\ (pool_inv st -> pool_inv st').

(** An environment in which no session file parses. *)
Definition E_garbled : Env :=
  mkEnv (fun _ => None) (fun _ => true) (fun _ => false)
        (fun _ _ _ => None) (fun _ => 22%Z) (fun _ _ => true).

(** A request without a name, through a proxy. *)
Definition req_alice : AddAccount :=
  mkAddAccount "al.ice+x@x.com" "secret" (Some "http://proxy:8080") None.

(** ** Properties *)

(** *** The string methods on the inputs that matter *)

Example replace_every_occurrence :
  PyStr.replace ".json" "" "a.json.jsonx.js.json" = "ax.js".
Proof. reflexivity. Qed.

Example replace_left_to_right : PyStr.replace "aa" "b" "aaa" = "ba".
Proof. reflexivity. Qed.

Example replace_empty_pattern : PyStr.replace "" "-" "ab" = "-a-b-".
Proof. reflexivity. Qed.

Example endswith_json :
  PyStr.endswith "bob.json" ".json" = true /\ PyStr.endswith "json" ".json" = false.
Proof. split; reflexivity. Qed.

Example split_head_first_separator : PyStr.split_head "@" "a@b@c" = "a".
Proof. reflexivity. Qed.

Example session_names_st_two : session_names (sessions st_two) ≡ₚ ["a"; "b"].
Proof. vm_compute. reflexivity. Qed.

(** *** The pool *)

Section PoolFacts.

Variable E : Env.

Lemma build_client_missing st n :
  sessions st !! session_file n = None ->
  build_client E n st =
    (Raise (HTTPException 404 ("Session " +:+ n +:+ ".json missing")), st).
Proof.
  intros Hs. unfold build_client, bind, get. simpl. by rewrite Hs.
Qed.

Lemma build_client_present st n blob :
  sessions st !! session_file n = Some blob ->
  read_ok E (session_file n) = true ->
  json_ok E blob = true ->
  build_client E n st =
    (Return (built_client st n blob),
     mkState (<[n := built_client st n blob]> (clients st)) (accounts st)
             (sessions st) (backups st) (S (next_id st))).
Proof.
  intros Hs Hr Hj.
  unfold build_client, bind, get, new_client, load_settings, modify, ret. simpl.
  rewrite Hs. simpl. unfold bind, get. simpl. rewrite Hs, Hr, Hj. simpl.
  unfold built_client. by destruct (truthy_proxy st n).
Qed.

Lemma get_client_not_served st n :
  not_served E st n ->
  get_client E n st = build_client E n (set_clients (delete n) st).
Proof.
  unfold not_served, get_client, bind, get. simpl.
  destruct (clients st !! n) as [cl|] eqn:Hc.
  - intros [e He]. unfold try_except, probe, bind. rewrite He. by simpl.
  - intros _. f_equal. destruct st as [c a s b k]. unfold set_clients. simpl in *.
    f_equal. symmetry. by apply delete_id.
Qed.


(** A session file that the library cannot load: the exception of
    [load_settings] propagates and nothing is cached for [n]. *)
Lemma get_client_unloadable st n blob :
  not_served E st n ->
  sessions st !! session_file n = Some blob ->
  read_ok E (session_file n) = false \/ json_ok E blob = false ->
  exists e st',
    get_client E n st = (Raise e, st') /\ clients st' !! n = None.
Proof.
  intros Hns Hs Hbad. rewrite (get_client_not_served st n Hns).
  unfold build_client, bind, get, new_client, load_settings. simpl.
  rewrite Hs. simpl. unfold bind, get. simpl. rewrite Hs.
  destruct (read_ok E (session_file n)); simpl.
  - destruct Hbad as [Hbad|Hbad]; [discriminate|]. rewrite Hbad. simpl.
    eexists _, _. split; [reflexivity|]. simpl. apply lookup_delete_eq.
  - eexists _, _. split; [reflexivity|]. simpl. apply lookup_delete_eq.
Qed.

Lemma build_client_wf st n r st' :
  pool_wf st -> build_client E n st = (r, st') -> pool_wf st'.
Proof.
  intros Hwf. unfold build_client, bind, get. simpl.
  destruct (sessions st !! session_file n) as [blob|] eqn:Hs.
  - unfold new_client, load_settings, bind, get. simpl. rewrite Hs.
    destruct (read_ok E (session_file n)); simpl.
    + destruct (json_ok E blob); simpl.
      * intros [= <- <-]. intros m c. simpl.
        destruct (decide (n = m)) as [->|Hne].
        -- rewrite lookup_insert_eq. intros [= <-].
           destruct (truthy_proxy st m); simpl; lia.
        -- rewrite lookup_insert_ne by done. intros Hm. apply Hwf in Hm. lia.
      * intros [= <- <-]. intros m c Hm. simpl in *. apply Hwf in Hm. lia.
    + intros [= <- <-]. intros m c Hm. simpl in *. apply Hwf in Hm. lia.
  - intros [= <- <-]. done.
Qed.

Lemma evict_wf st n : pool_wf st -> pool_wf (set_clients (delete n) st).
Proof.
  intros Hwf m c. simpl. intros Hm.
  apply lookup_delete_Some in Hm as [_ Hm]. by apply Hwf in Hm.
Qed.

(** [get_client] keeps the allocator ahead of the pool, whatever it returns. *)
Lemma get_client_wf st n r st' :
  pool_wf st -> get_client E n st = (r, st') -> pool_wf st'.
Proof.
  intros Hwf. unfold get_client, bind, get. simpl.
  destruct (clients st !! n) as [cl|] eqn:Hc.
  - unfold try_except, probe, bind.
    destruct (get_timeline_feed E cl); simpl.
    + apply build_client_wf. by apply evict_wf.
    + intros [= <- <-]. done.
  - by apply build_client_wf.
Qed.

End PoolFacts.



(** *** Deleting an account *)


(** C10. With a handle cached for [n] but no session file [n.json],
    [delete_account n] raises the 404 and does not evict: the stale handle is
    still cached under [n] afterwards. *)
Theorem delete_account_unknown_keeps_stale_handle st n cl :
  clients st !! n = Some cl ->
  sessions st !! session_file n = None ->
  exists st',
    delete_account n st = (Raise (HTTPException 404 "Account not found"), st')
    /\ clients st' !! n = Some cl.
Proof.
  intros Hc Hs. exists st. split; [|done].
  unfold delete_account, bind, get. simpl. by rewrite Hs.
Qed.

(** *** Deriving the account name *)

Lemma split_head_at s : PyStr.split_head "@" s = local_part s.
Proof.
  induction s as [|c s IH]; [done|].
  cbn [PyStr.split_head PyStr.startswith local_part].
  rewrite (Ascii.eqb_sym "@" c). destruct (Ascii.eqb c "@"); [done|].
  by rewrite IH.
Qed.

Lemma replace_char a b s :
  PyStr.replace (String a EmptyString) (String b EmptyString) s =
  PyStr.map_chars (fun c => if Ascii.eqb a c then b else c) s.
Proof.
  unfold PyStr.replace. induction s as [|c s IH]; [done|].
  cbn [PyStr.replace_from PyStr.startswith PyStr.map_chars String.length Nat.sub].
  destruct (Ascii.eqb a c); cbn [String.app]; by rewrite IH.
Qed.

Lemma map_chars_compose f g s :
  PyStr.map_chars f (PyStr.map_chars g s) = PyStr.map_chars (fun c => f (g c)) s.
Proof. induction s as [|c s IH]; [done|]. simpl. by rewrite IH. Qed.

Lemma map_chars_ext f g s :
  (forall c, f c = g c) -> PyStr.map_chars f s = PyStr.map_chars g s.
Proof. intros Hfg. induction s as [|c s IH]; [done|]. simpl. by rewrite Hfg, IH. Qed.

Lemma derive_name_no_name req :
  name req = None ->
  derive_name req = PyStr.map_chars normalize_char (local_part (email req)).
Proof.
  intros Hn. unfold derive_name. rewrite Hn.
  rewrite split_head_at, !replace_char, map_chars_compose.
  apply map_chars_ext. intros c. unfold normalize_char.
  rewrite (Ascii.eqb_sym "+" c).
  destruct (Ascii.eqb_spec c "+") as [->|Hplus]; [done|].
  cbn [orb]. by rewrite (Ascii.eqb_sym "." c).
Qed.

(** C9. Called without an explicit name, [add_account] answers with the
    email's local part (the text before ['@']) in which every ['+'] and every
    ['.'] is replaced by ['_']; for [alice@x.com] the name is [alice]. *)
Theorem add_account_derived_name E req :
  name req = None ->
  account_name_of (fst (add_account E req)) =
    PyStr.map_chars normalize_char (local_part (email req))
  /\ forall pw px,
       account_name_of (fst (add_account E (mkAddAccount "alice@x.com" pw px None))) = "alice".
Proof.
  intros Hn. split.
  - simpl. by apply derive_name_no_name.
  - intros pw px. reflexivity.
Qed.

(** *** Archives *)









(** *** Entries and their names *)


Lemma getinfo_is_Some ms m : m ∈ ms -> is_Some (getinfo ms (filename m)).
Proof.
  induction ms as [|m0 ms IH]; intros Hin; [by apply elem_of_nil in Hin|].
  simpl. destruct (getinfo ms (filename m)) as [m'|] eqn:Hg; [by eexists|].
  apply elem_of_cons in Hin as [->|Hin].
  - rewrite String.eqb_refl. by eexists.
  - apply IH in Hin. destruct Hin as [x Hx]. discriminate.
Qed.










(** *** Extraction *)

(** [extract] touches the session directory only, and there adds or
    replaces a file. *)
Lemma extract_frame m st :
  clients (extract m st).2 = clients st
  /\ accounts (extract m st).2 = accounts st
  /\ backups (extract m st).2 = backups st
  /\ next_id (extract m st).2 = next_id st.
Proof.
  unfold extract. destruct (member_target m) as [f|]; [|done].
  by destruct (payload m).
Qed.

Lemma extract_list_frame ms : forall st,
  clients (extract_list ms st).2 = clients st
  /\ accounts (extract_list ms st).2 = accounts st
  /\ backups (extract_list ms st).2 = backups st
  /\ next_id (extract_list ms st).2 = next_id st.
Proof.
  induction ms as [|m ms IH]; intros st; [done|].
  simpl. unfold bind.
  pose proof (extract_frame m st) as (Hc & Ha & Hb & Hn).
  destruct (extract m st) as [[[]|e|] st1]; simpl in *; [|done|done].
  destruct (IH st1) as (Hc' & Ha' & Hb' & Hn'). by rewrite Hc', Ha', Hb', Hn'.
Qed.

Lemma extract_names_list zf names st :
  (forall name, name ∈ names -> is_Some (getinfo zf name)) ->
  extract_names zf names st = extract_list (omap (getinfo zf) names) st.
Proof.
  revert st. induction names as [|name names IH]; intros st Hall; [done|].
  destruct (Hall name) as [m Hm]; [apply elem_of_cons; by left|].
  csimpl. rewrite Hm. simpl. unfold bind.
  destruct (extract m st) as [[[]|e|] st1]; [|done|done].
  apply IH. intros n Hn. apply Hall, elem_of_cons. by right.
Qed.

Lemma extractall_resolved ms st :
  extractall ms st =
    if existsb (fun m => occurs Ascii.zero (filename m)) ms then (Beyond, st)
    else extract_list (resolved ms) st.
Proof.
  unfold extractall. destruct (existsb _ ms); [done|].
  apply extract_names_list. intros name Hin.
  apply list_elem_of_fmap in Hin as (m & -> & Hin). by apply getinfo_is_Some.
Qed.

Lemma extractall_frame ms st :
  clients (extractall ms st).2 = clients st
  /\ accounts (extractall ms st).2 = accounts st
  /\ backups (extractall ms st).2 = backups st
  /\ next_id (extractall ms st).2 = next_id st.
Proof.
  rewrite extractall_resolved. destruct (existsb _ ms); [done|].
  apply extract_list_frame.
Qed.





(** *** The upload and the restore as a whole *)






(** *** The pool invariant

    A process starts with an empty pool, and no endpoint lets a cached
    handle overtake the allocator. *)

Lemma pool_wf_empty st : clients st = ∅ -> pool_wf st.
Proof. intros He n cl. rewrite He, lookup_empty. discriminate. Qed.

Lemma delete_account_wf st n r st' :
  pool_wf st -> delete_account n st = (r, st') -> pool_wf st'.
Proof.
  intros Hwf. unfold delete_account, bind, get. simpl.
  destruct (sessions st !! session_file n); simpl.
  - intros [= <- <-]. intros m c. simpl. intros Hm.
    apply lookup_delete_Some in Hm as [_ Hm]. by apply Hwf in Hm.
  - intros [= <- <-]. done.
Qed.

(** *** Session files and the names listed for them *)

Lemma str_length_app a b : String.length (a +:+ b) = String.length a + String.length b.
Proof. induction a as [|c a IH]; [done|]. simpl. by rewrite IH. Qed.

Lemma substring_whole b : String.substring 0 (String.length b) b = b.
Proof. induction b as [|c b IH]; [done|]. simpl. by rewrite IH. Qed.

Lemma substring_after a b :
  String.substring (String.length a) (String.length b) (a +:+ b) = b.
Proof. induction a as [|c a IH]; [apply substring_whole|]. simpl. apply IH. Qed.

Lemma endswith_app a b : PyStr.endswith (a +:+ b) b = true.
Proof.
  unfold PyStr.endswith. rewrite str_length_app.
  replace (String.length b <=? String.length a + String.length b)%nat with true
    by (symmetry; apply Nat.leb_le; lia).
  replace (String.length a + String.length b - String.length b)
    with (String.length a) by lia.
  rewrite substring_after. apply String.eqb_refl.
Qed.

Lemma replace_json_plain n :
  occurs "." n = false -> PyStr.replace ".json" "" (session_file n) = n.
Proof.
  unfold PyStr.replace, session_file.
  induction n as [|c n IH]; [done|].
  cbn [occurs]. intros Hc. apply orb_false_iff in Hc as [Hc Hn].
  change (String c n +:+ ".json") with (String c (n +:+ ".json")).
  cbn [PyStr.replace_from PyStr.startswith].
  rewrite (Ascii.eqb_sym "." c), Hc. by rewrite IH.
Qed.

Lemma session_file_inj m n : session_file m = session_file n -> m = n.
Proof.
  unfold session_file. revert n.
  induction m as [|c m IH]; intros [|d n] Heq; [done| | |].
  - apply (f_equal String.length) in Heq. simpl in Heq.
    rewrite str_length_app in Heq. simpl in Heq. lia.
  - apply (f_equal String.length) in Heq. simpl in Heq.
    rewrite str_length_app in Heq. simpl in Heq. lia.
  - simpl in Heq. injection Heq as -> Heq. f_equal. by apply IH.
Qed.

Lemma session_names_elem (dir : gmap string Blob) f :
  is_Some (dir !! f) ->
  PyStr.endswith f ".json" = true ->
  PyStr.replace ".json" "" f ∈ session_names dir.
Proof.
  intros [d Hd] Hend. unfold session_names, listdir.
  apply list_elem_of_In, in_map, filter_In. split; [|done].
  apply list_elem_of_In, list_elem_of_fmap. exists (f, d). split; [done|].
  by apply elem_of_map_to_list.
Qed.

(** X9. An account whose name has no ['.'] and whose session file [n.json]
    exists is listed under exactly that name. *)
Theorem session_names_lists_plain_name (dir : gmap string Blob) n blob :
  occurs "." n = false ->
  dir !! session_file n = Some blob ->
  n ∈ session_names dir.
Proof.
  intros Hplain Hn. rewrite <- (replace_json_plain n Hplain).
  apply session_names_elem; [by eexists|].
  unfold session_file. apply endswith_app.
Qed.

(** *** Names of files and of accounts *)



Lemma split_slash_plain f : occurs "/" f = false -> PyPath.split_slash f = [f].
Proof.
  induction f as [|c f IH]; [done|]. cbn [occurs PyPath.split_slash].
  intros Hc. apply orb_false_iff in Hc as [Hc Hf]. by rewrite Hc, (IH Hf).
Qed.

Lemma valid_name_kept f :
  valid_name f -> negb (PyPath.is_dot f || PyPath.is_dotdot f) = true.
Proof.
  intros (_ & _ & He & Hd & Hdd). unfold PyPath.is_dot, PyPath.is_dotdot.
  destruct (String.eqb_spec f ""); [done|].
  destruct (String.eqb_spec f "."); [done|].
  by destruct (String.eqb_spec f "..").
Qed.





(** The path of the session file of a valid name leads to that file, and so
    does the path of an upload with a valid name. *)
Lemma walk_dir_entry d f :
  valid_name f -> d = SessionsDir \/ d = BackupsDir ->
  PyPath.walk d [f] = FileIn d f.
Proof.
  intros Hv Hd. pose proof (valid_name_kept f Hv) as Hk.
  apply negb_true_iff, orb_false_iff in Hk as [Hdot Hdd].
  cbn [PyPath.walk]. rewrite Hdot, Hdd. by destruct Hd as [-> | ->].
Qed.

Lemma occurs_app c a b : occurs c (a +:+ b) = occurs c a || occurs c b.
Proof. induction a as [|x a IH]; [done|]. simpl. by rewrite IH, orb_assoc. Qed.

Lemma split_slash_dir dir f :
  occurs "/" dir = false -> occurs "/" f = false ->
  PyPath.split_slash (dir +:+ "/" +:+ f) = [dir; f].
Proof.
  intros Hd Hf. induction dir as [|c dir IH].
  - change ("" +:+ "/" +:+ f) with (String "/" f).
    cbn [PyPath.split_slash]. by rewrite Ascii.eqb_refl, (split_slash_plain f Hf).
  - cbn [occurs] in Hd. apply orb_false_iff in Hd as [Hc Hd].
    change (String c dir +:+ "/" +:+ f) with (String c (dir +:+ "/" +:+ f)).
    cbn [PyPath.split_slash]. by rewrite Hc, (IH Hd).
Qed.

Lemma valid_name_not_absolute f : valid_name f -> PyStr.startswith "/" f = false.
Proof.
  intros (_ & Hs & _). destruct f as [|c f]; [done|].
  cbn [occurs] in Hs. apply orb_false_iff in Hs as [Hc _].
  cbn [PyStr.startswith]. by rewrite Ascii.eqb_sym, Hc.
Qed.

Lemma resolve_backup_name f :
  valid_name f -> PyPath.resolve (PyPath.join BACKUP_DIR f) = FileIn BackupsDir f.
Proof.
  intros Hv. pose proof Hv as (Hz & Hs & _).
  unfold PyPath.join. rewrite (valid_name_not_absolute f Hv).
  change (String.eqb BACKUP_DIR "" || PyStr.endswith BACKUP_DIR "/") with false.
  cbv iota. unfold PyPath.resolve, BACKUP_DIR.
  rewrite !occurs_app, Hz. change (occurs Ascii.zero "backups") with false.
  change (occurs Ascii.zero "/") with false. cbn [orb].
  change (PyStr.startswith "/" ("backups" +:+ "/" +:+ f)) with false. cbv iota.
  rewrite (split_slash_dir "backups" f eq_refl Hs).
  change (PyPath.walk Cwd ["backups"; f]) with (PyPath.walk BackupsDir [f]).
  apply walk_dir_entry; auto.
Qed.


(** An upload with a valid file name stays in the backup area. *)
Lemma valid_name_plain_upload f : valid_name f -> plain_upload_name f.
Proof. apply resolve_backup_name. Qed.

(** *** Account names, as the specification has them *)

Lemma substring_before a b : String.substring 0 (String.length a) (a +:+ b) = a.
Proof.
  induction a as [|c a IH]; [by destruct b|]. simpl. by rewrite IH.
Qed.


Lemma account_of_file_session n : account_of_file (session_file n) = Some n.
Proof.
  unfold account_of_file, session_file. rewrite endswith_app.
  rewrite str_length_app. change (String.length ".json") with 5.
  replace (String.length n + 5 - 5) with (String.length n) by lia.
  by rewrite substring_before.
Qed.







(** *** Archives of valid file names *)





Lemma files_of_app rs1 rs2 files1 files2 :
  files_of rs1 = Some files1 -> files_of rs2 = Some files2 ->
  files_of (rs1 ++ rs2)%list = Some (files1 ++ files2)%list.
Proof.
  revert files1. induction rs1 as [|m rs1 IH]; intros files1; simpl.
  - by intros [= <-].
  - destruct (member_file m) as [fd|]; [|done].
    destruct (files_of rs1) as [fds|]; [|done].
    intros [= <-] H2. by rewrite (IH fds eq_refl H2).
Qed.




(** *** Restoring *)

Lemma get_client_uncached E st n :
  clients st !! n = None -> get_client E n st = build_client E n st.
Proof. intros Hc. unfold get_client, bind, get. simpl. by rewrite Hc. Qed.





(** *** Backing up *)

Section BackupFacts.

Variable E : Env.





End BackupFacts.



(** *** Uploads that do not extract *)



(** ** Concrete runs *)








Lemma delete_account_unknown_keeps_stale_handle_witness :
  exists st',
    delete_account "bob" st_stale =
      (Raise (HTTPException 404 "Account not found"), st')
    /\ clients st' !! "bob" = Some bob_handle.
Proof.
  apply (delete_account_unknown_keeps_stale_handle st_stale "bob" bob_handle);
    reflexivity.
Defined.

Lemma add_account_derived_name_witness :
  account_name_of
    (fst (add_account E_calm (mkAddAccount "a.b+c@x.com" "secret" None None)))
  = "a_b_c".
Proof.
  apply (proj1 (add_account_derived_name E_calm
                  (mkAddAccount "a.b+c@x.com" "secret" None None) eq_refl)).
Defined.






(** *** Where the specification and the code part *)







(** ** Further properties of the code *)

(** *** The pool, beyond the claims *)

Section PoolMore.

Variable E : Env.

Lemma build_client_shape st n :
  let st' := (build_client E n st).2 in
  sessions st' = sessions st /\ accounts st' = accounts st
  /\ backups st' = backups st /\ next_id st <= next_id st'
  /\ (clients st' = clients st
      \/ exists cl, obj_id cl = next_id st /\ next_id st < next_id st'
                    /\ clients st' = <[n := cl]> (clients st)).
Proof.
  unfold build_client, bind, get. simpl.
  destruct (sessions st !! session_file n) as [blob|] eqn:Hs; simpl.
  - unfold load_settings, bind, get. simpl. rewrite Hs.
    destruct (read_ok E (session_file n)); simpl.
    + destruct (json_ok E blob); simpl.
      * repeat split; try lia. right. eexists. split; [|split; [|reflexivity]].
        -- by destruct (truthy_proxy st n).
        -- lia.
      * repeat split; try lia. by left.
    + repeat split; try lia. by left.
  - repeat split; try lia. by left.
Qed.

Lemma get_client_pool_step st n : pool_step n st (get_client E n st).2.
Proof.
  unfold pool_step, get_client, bind, get. simpl.
  destruct (clients st !! n) as [cl|] eqn:Hc.
  - unfold try_except, probe, bind.
    destruct (get_timeline_feed E cl); simpl.
    + destruct (build_client_shape (set_clients (delete n) st) n)
        as (Hs & Ha & Hb & Hn & Hcl).
      simpl in *. repeat split; try done.
      destruct Hcl as [Hcl|(c & Hid & Hlt & Hcl)].
      * right. by left.
      * right. right. exists c. rewrite Hcl, insert_delete_eq. done.
    + repeat split; try done. by left.
  - destruct (build_client_shape st n) as (Hs & Ha & Hb & Hn & Hcl).
    repeat split; try done.
    destruct Hcl as [Hcl|Hcl]; [by left|by right; right].
Qed.

Lemma get_client_returns_cached st n cl st' :
  get_client E n st = (Return cl, st') -> clients st' !! n = Some cl.
Proof.
  unfold get_client, bind, get. simpl.
  assert (Hb : forall s, build_client E n s = (Return cl, st') ->
                         clients st' !! n = Some cl).
  { intros s. unfold build_client, bind, get. simpl.
    destruct (sessions s !! session_file n) as [blob|] eqn:Hs; simpl; [|intros [=]].
    unfold load_settings, bind, get. simpl. rewrite Hs.
    destruct (read_ok E (session_file n)); simpl; [|intros [=]].
    destruct (json_ok E blob); simpl; [|intros [=]].
    intros [= <- <-]. simpl. apply lookup_insert_eq. }
  destruct (clients st !! n) as [c|] eqn:Hc; [|apply Hb].
  unfold try_except, probe, bind.
  destruct (get_timeline_feed E c); simpl; [apply Hb|].
  intros [= <- <-]. done.
Qed.

(** [get_client] stays within the model. *)
Lemma build_client_within st n : (build_client E n st).1 <> Beyond.
Proof.
  unfold build_client, bind, get. simpl.
  destruct (sessions st !! session_file n) as [blob|] eqn:Hs; simpl; [|done].
  unfold load_settings, bind, get. simpl. rewrite Hs.
  destruct (read_ok E (session_file n)); simpl; [|done].
  by destruct (json_ok E blob).
Qed.

Lemma get_client_within st n : (get_client E n st).1 <> Beyond.
Proof.
  unfold get_client, bind, get. simpl.
  destruct (clients st !! n) as [cl|]; [|apply build_client_within].
  unfold try_except, probe, bind.
  destruct (get_timeline_feed E cl); simpl; [apply build_client_within|done].
Qed.

End PoolMore.

Lemma pool_inv_step n st st' : pool_step n st st' -> pool_inv st -> pool_inv st'.
Proof.
  intros (_ & _ & _ & Hn & Hcl) [Hwf Hd].
  destruct Hcl as [Hcl|[Hcl|(cl & Hid & Hlt & Hcl)]].
  - split.
    + intros m c. rewrite Hcl. intros Hm. apply Hwf in Hm. lia.
    + intros m k c d. rewrite Hcl. apply Hd.
  - split.
    + intros m c. rewrite Hcl. intros Hm.
      apply lookup_delete_Some in Hm as [_ Hm]. apply Hwf in Hm. lia.
    + intros m k c d. rewrite Hcl. intros Hm Hk.
      apply lookup_delete_Some in Hm as [_ Hm].
      apply lookup_delete_Some in Hk as [_ Hk]. by apply (Hd m k c d).
  - split.
    + intros m c. rewrite Hcl. intros Hm.
      apply lookup_insert_Some in Hm as [[_ <-]|[_ Hm]]; [lia|].
      apply Hwf in Hm. lia.
    + intros m k c d. rewrite Hcl. intros Hm Hk Heq.
      apply lookup_insert_Some in Hm as [[<- <-]|[Hnm Hm]];
        apply lookup_insert_Some in Hk as [[<- <-]|[Hnk Hk]]; try done.
      * apply Hwf in Hk. lia.
      * apply Hwf in Hm. lia.
      * by apply (Hd m k c d).
Qed.

Lemma pool_only_refl st : pool_only st st.
Proof. unfold pool_only. auto. Qed.

Lemma pool_only_trans st1 st2 st3 :
  pool_only st1 st2 -> pool_only st2 st3 -> pool_only st1 st3.
Proof.
  intros (Hs & Ha & Hb & Hi) (Hs' & Ha' & Hb' & Hi').
  unfold pool_only. split; [congruence|]. split; [congruence|].
  split; [congruence|auto].
Qed.

Lemma get_client_pool_only E n st : pool_only st (get_client E n st).2.
Proof.
  pose proof (get_client_pool_step E st n) as Hstep.
  pose proof Hstep as (Hs & Ha & Hb & _).
  split; [done|]. split; [done|]. split; [done|].
  by apply (pool_inv_step n).
Qed.

(** X1. A cached handle whose probe answers is returned as it is: the call
    allocates nothing, reads no file and leaves the whole state unchanged,
    with or without a session file behind the handle. *)
Theorem get_client_serves_live_handle E st n cl :
  clients st !! n = Some cl ->
  get_timeline_feed E cl = None ->
  get_client E n st = (Return cl, st).
Proof.
  intros Hc Hp. unfold get_client, bind, get. simpl. rewrite Hc.
  unfold try_except, probe, bind. by rewrite Hp.
Qed.

(** X2. Two calls in a row: once [get_client n] has built a handle that
    answers its probe, the next call returns that same object and changes
    nothing. *)
Theorem get_client_twice_same_handle E st n blob :
  not_served E st n ->
  sessions st !! session_file n = Some blob ->
  read_ok E (session_file n) = true ->
  json_ok E blob = true ->
  get_timeline_feed E (built_client st n blob) = None ->
  exists cl st1,
    get_client E n st = (Return cl, st1)
    /\ obj_id cl = next_id st
    /\ get_client E n st1 = (Return cl, st1).
Proof.
  intros Hns Hs Hr Hj Hp.
  rewrite (get_client_not_served E st n Hns).
  rewrite (build_client_present E (set_clients (delete n) st) n blob Hs Hr Hj).
  eexists _, _. split; [reflexivity|]. split; [reflexivity|].
  unfold get_client, bind, get. simpl. rewrite lookup_insert_eq.
  unfold try_except, probe, bind.
  change (built_client (set_clients (delete n) st) n blob)
    with (built_client st n blob).
  by rewrite Hp.
Qed.

(** X3. Whatever it returns or raises, [get_client n] leaves the session
    directory, [accounts] and the backups alone, never moves the allocator
    backwards, and in the pool touches no entry but the one of [n]. *)
Theorem get_client_touches_only_its_entry E n st :
  sessions (get_client E n st).2 = sessions st
  /\ accounts (get_client E n st).2 = accounts st
  /\ backups (get_client E n st).2 = backups st
  /\ next_id st <= next_id (get_client E n st).2
  /\ forall m, m <> n -> clients (get_client E n st).2 !! m = clients st !! m.
Proof.
  destruct (get_client_pool_step E st n) as (Hs & Ha & Hb & Hn & Hcl).
  repeat split; try done.
  intros m Hm. destruct Hcl as [->|[->|(cl & _ & _ & ->)]].
  - done.
  - by apply lookup_delete_ne.
  - by apply lookup_insert_ne.
Qed.

(** *** The listings *)

Section Listings.

Variable E : Env.
Variable A : Api.

Lemma account_status_run acc st :
  exists entry,
    account_status E A acc st = (Return entry, (get_client E acc st).2)
    /\ (forall u f g p b, entry = Active u f g p b ->
        exists cl, get_client E acc st = (Return cl, (get_client E acc st).2)).
Proof.
  unfold account_status, try_except, bind.
  pose proof (get_client_within E st acc) as Hin.
  destruct (get_client E acc st) as [[cl|e|] st1]; simpl.
  - unfold fetch_info. destruct (cl_account_info A cl) as [e|info]; simpl.
    + eexists. split; [reflexivity|]. intros; discriminate.
    + eexists. split; [reflexivity|]. intros. by exists cl.
  - eexists. split; [reflexivity|]. intros; discriminate.
  - by destruct Hin.
Qed.

Lemma bulk_entry_run acc st :
  exists entry,
    bulk_entry E A acc st = (Return entry, (get_client E acc st).2)
    /\ (forall u f, entry = BulkActive u f ->
        exists cl, get_client E acc st = (Return cl, (get_client E acc st).2))
    /\ (forall e, (get_client E acc st).1 = Raise e ->
        entry = BulkError (str_of_exn A e)).
Proof.
  unfold bulk_entry, try_except_as, bind.
  pose proof (get_client_within E st acc) as Hin.
  destruct (get_client E acc st) as [[cl|e|] st1]; simpl.
  - unfold fetch_info. destruct (cl_account_info A cl) as [e|info]; simpl.
    + eexists. split; [reflexivity|]. split; intros; discriminate.
    + eexists. split; [reflexivity|]. split; [|intros; discriminate].
      intros. by exists cl.
  - eexists. split; [reflexivity|]. split; [intros; discriminate|].
    by intros e' [= ->].
  - by destruct Hin.
Qed.

Lemma get_client_other_entries n st m :
  m <> n -> clients (get_client E n st).2 !! m = clients st !! m.
Proof.
  intros Hm.
  destruct (get_client_pool_step E st n) as (_ & _ & _ & _ & Hcl).
  destruct Hcl as [->|[->|(cl & _ & _ & ->)]].
  - done.
  - by apply lookup_delete_ne.
  - by apply lookup_insert_ne.
Qed.

Lemma status_loop_run accs : forall status st,
  exists status' st',
    status_loop E A accs status st = (Return status', st')
    /\ dom status' = dom status ∪ list_to_set accs
    /\ pool_only st st'
    /\ ((forall acc u f g p b, status !! acc = Some (Active u f g p b) ->
                               is_Some (clients st !! acc)) ->
        forall acc u f g p b, status' !! acc = Some (Active u f g p b) ->
                              is_Some (clients st' !! acc)).
Proof.
  induction accs as [|acc accs IH]; intros status st.
  - exists status, st. split; [done|]. split.
    { simpl. by rewrite (right_id_L ∅ (∪)). }
    split; [apply pool_only_refl|done].
  - destruct (account_status_run acc st) as (entry & Hrun & Hact).
    destruct (IH (<[acc := entry]> status) (get_client E acc st).2)
      as (status' & st' & Hloop & Hdom & Hpool & Hcached).
    exists status', st'. split; [|split; [|split]].
    + simpl. unfold bind. rewrite Hrun. exact Hloop.
    + rewrite Hdom, dom_insert_L. simpl.
      by rewrite (comm_L (∪) {[acc]}), <- (assoc_L (∪)).
    + eapply pool_only_trans; [apply get_client_pool_only|exact Hpool].
    + intros Hold. apply Hcached. intros k u f g p b Hk.
      apply lookup_insert_Some in Hk as [[<- ->]|[Hne Hk]].
      * destruct (Hact u f g p b eq_refl) as [cl Hcl].
        apply get_client_returns_cached in Hcl. by eexists.
      * rewrite get_client_other_entries by done. by apply (Hold k u f g p b).
Qed.

Lemma bulk_loop_run accs : forall results st,
  exists results' st',
    bulk_loop E A accs results st = (Return results', st')
    /\ dom results' = dom results ∪ list_to_set accs
    /\ pool_only st st'
    /\ ((forall acc u f, results !! acc = Some (BulkActive u f) ->
                         is_Some (clients st !! acc)) ->
        forall acc u f, results' !! acc = Some (BulkActive u f) ->
                        is_Some (clients st' !! acc)).
Proof.
  induction accs as [|acc accs IH]; intros results st.
  - exists results, st. split; [done|]. split.
    { simpl. by rewrite (right_id_L ∅ (∪)). }
    split; [apply pool_only_refl|done].
  - destruct (bulk_entry_run acc st) as (entry & Hrun & Hact & _).
    destruct (IH (<[acc := entry]> results) (get_client E acc st).2)
      as (results' & st' & Hloop & Hdom & Hpool & Hcached).
    exists results', st'. split; [|split; [|split]].
    + simpl. unfold bind. rewrite Hrun. exact Hloop.
    + rewrite Hdom, dom_insert_L. simpl.
      by rewrite (comm_L (∪) {[acc]}), <- (assoc_L (∪)).
    + eapply pool_only_trans; [apply get_client_pool_only|exact Hpool].
    + intros Hold. apply Hcached. intros k u f Hk.
      apply lookup_insert_Some in Hk as [[<- ->]|[Hne Hk]].
      * destruct (Hact u f eq_refl) as [cl Hcl].
        apply get_client_returns_cached in Hcl. by eexists.
      * rewrite get_client_other_entries by done. by apply (Hold k u f).
Qed.



End Listings.

(** X4. [list_accounts] never raises: whatever the probes, the session files
    and the library do, it answers with [total] the number of [.json] files
    and a status for exactly the listed names, and it changes neither the
    session directory nor [accounts] nor the backups. *)
Theorem list_accounts_never_raises E A st :
  exists resp st',
    list_accounts E A st = (Return resp, st')
    /\ total resp = length (session_names (sessions st))
    /\ dom (statuses resp) = list_to_set (session_names (sessions st))
    /\ sessions st' = sessions st /\ accounts st' = accounts st
    /\ backups st' = backups st.
Proof.
  destruct (status_loop_run E A (session_names (sessions st)) ∅ st)
    as (status & st' & Hloop & Hdom & (Hs & Ha & Hb & _) & _).
  exists (mkListResponse (length (session_names (sessions st))) status), st'.
  split.
  { unfold list_accounts, bind, get. simpl. by rewrite Hloop. }
  split; [done|]. split; [|done].
  simpl. by rewrite Hdom, dom_empty_L, (left_id_L ∅ (∪)).
Qed.

(** X5. Every account that [list_accounts] reports as active has its handle
    in the pool when the call is over. *)
Theorem list_accounts_active_is_cached E A st resp st' acc u f g p b :
  list_accounts E A st = (Return resp, st') ->
  statuses resp !! acc = Some (Active u f g p b) ->
  is_Some (clients st' !! acc).
Proof.
  destruct (status_loop_run E A (session_names (sessions st)) ∅ st)
    as (status & st1 & Hloop & _ & _ & Hcached).
  unfold list_accounts, bind, get. simpl. rewrite Hloop. simpl.
  intros [= <- <-]. simpl. apply Hcached.
  intros k ? ? ? ? ? Hk. by rewrite lookup_empty in Hk.
Qed.

(** X6. [bulk_status] never raises: it answers with an entry for exactly the
    requested names (none for an empty request) and changes neither the
    session directory nor [accounts] nor the backups. *)
Theorem bulk_status_never_raises E A accs st :
  exists results st',
    bulk_status E A accs st = (Return results, st')
    /\ dom results = list_to_set accs
    /\ sessions st' = sessions st /\ accounts st' = accounts st
    /\ backups st' = backups st.
Proof.
  destruct (bulk_loop_run E A accs ∅ st)
    as (results & st' & Hloop & Hdom & (Hs & Ha & Hb & _) & _).
  exists results, st'. split; [exact Hloop|]. split; [|done].
  by rewrite Hdom, dom_empty_L, (left_id_L ∅ (∪)).
Qed.


(** *** What each call leaves alone *)

Lemma pool_inv_sub st st' :
  (forall m c, clients st' !! m = Some c -> clients st !! m = Some c) ->
  next_id st <= next_id st' ->
  pool_inv st -> pool_inv st'.
Proof.
  intros Hsub Hn [Hwf Hd]. split.
  - intros m c Hm. apply Hsub, Hwf in Hm. lia.
  - intros m k c d Hm Hk. apply (Hd m k c d); by apply Hsub.
Qed.

Lemma create_backup_frame E ts st :
  clients (create_backup E ts st).2 = clients st
  /\ accounts (create_backup E ts st).2 = accounts st
  /\ sessions (create_backup E ts st).2 = sessions st
  /\ next_id (create_backup E ts st).2 = next_id st
  /\ exists zf,
       backups (create_backup E ts st).2 =
         <["backup_" +:+ ts +:+ ".zip" := ZipOf zf]> (backups st).
Proof.
  unfold create_backup, bind, get. simpl.
  destruct (zip_write_each E [] (map_to_list (sessions st))) as [zf [[]|e|]];
    simpl; repeat split; by exists zf.
Qed.

Lemma write_upload_frame path up st :
  clients (write_upload path up st).2 = clients st
  /\ accounts (write_upload path up st).2 = accounts st
  /\ next_id (write_upload path up st).2 = next_id st
  /\ (forall f, is_Some (sessions st !! f) ->
                is_Some (sessions (write_upload path up st).2 !! f)).
Proof.
  unfold write_upload.
  destruct (PyPath.resolve path) as [[] f| | |]; simpl; repeat split; try done.
  intros g Hg. rewrite lookup_insert_is_Some'. by right.
Qed.

Lemma restore_backup_frame nm up st :
  accounts (restore_backup nm up st).2 = accounts st
  /\ next_id (restore_backup nm up st).2 = next_id st
  /\ match (restore_backup nm up st).1 with
     | Return _ => clients (restore_backup nm up st).2 = ∅
     | _ => clients (restore_backup nm up st).2 = clients st
     end.
Proof.
  destruct (write_upload_frame (PyPath.join BACKUP_DIR nm) up st)
    as (Hc & Ha & Hn & _).
  unfold restore_backup, bind.
  destruct (write_upload _ up st) as [[[]|e|] st1]; simpl in *; [|done|done].
  unfold open_zip, archive_of. destruct (upload_members up) as [ms|]; simpl; [|done].
  destruct (overwrites_itself _ ms); simpl; [done|].
  destruct (extractall_frame ms st1) as (Hc' & Ha' & _ & Hn').
  destruct (extractall ms st1) as [[[]|e|] st2]; simpl in *;
    repeat split; congruence.
Qed.

Lemma dump_settings_frame path dumped st :
  clients (dump_settings path dumped st).2 = clients st
  /\ accounts (dump_settings path dumped st).2 = accounts st
  /\ backups (dump_settings path dumped st).2 = backups st
  /\ next_id (dump_settings path dumped st).2 = next_id st.
Proof.
  unfold dump_settings. by destruct (PyPath.resolve path) as [[] f| | |].
Qed.

Lemma create_session_frame E req n now st :
  clients (create_session E req n now st).2 = clients st
  /\ backups (create_session E req n now st).2 = backups st
  /\ next_id (create_session E req n now st).2 = S (next_id st).
Proof.
  unfold create_session, try_except_as, bind, new_client. simpl.
  destruct (login E _ _ _) as [dumped|]; simpl.
  - match goal with |- context [dump_settings ?p ?d ?s] =>
      destruct (dump_settings_frame p d s) as (Hc & _ & Hb & Hn);
      destruct (dump_settings p d s) as [[[]|e|] st1]
    end; simpl in *.
    + done.
    + by destruct (print_ok E n e).
    + done.
  - by destruct (print_ok E n ClientError).
Qed.

Lemma change_profile_pic_state E A account filename image tmp st :
  (change_profile_pic E A account filename image tmp st).1.2
  = (get_client E account st).2.
Proof.
  unfold change_profile_pic.
  destruct (get_client E account st) as [[cl|e|] st1]; [|done|done].
  by destruct (PyPath.resolve _) as [[] f| | |].
Qed.

Lemma step_pool_inv E A st st' : step E A st st' -> pool_inv st -> pool_inv st'.
Proof.
  intros Hstep. destruct Hstep.
  - apply get_client_pool_only.
  - destruct (create_session_frame E req n now st) as (Hc & _ & Hn).
    apply pool_inv_sub; [by rewrite Hc|lia].
  - destruct (status_loop_run E A (session_names (sessions st)) ∅ st)
      as (status & st' & Hloop & _ & (_ & _ & _ & Hinv) & _).
    unfold list_accounts, bind, get. simpl. by rewrite Hloop.
  - destruct (bulk_loop_run E A accs ∅ st)
      as (results & st' & Hloop & _ & (_ & _ & _ & Hinv) & _).
    unfold bulk_status. by rewrite Hloop.
  - rewrite change_profile_pic_state. apply get_client_pool_only.
  - destruct (create_backup_frame E ts st) as (Hc & _ & _ & Hn & _).
    apply pool_inv_sub; [by rewrite Hc|lia].
  - destruct (restore_backup_frame nm up st) as (_ & Hn & Hc).
    apply pool_inv_sub; [|lia].
    destruct (restore_backup nm up st).1; rewrite Hc; [|done|done].
    intros m c Hm. by rewrite lookup_empty in Hm.
  - apply pool_inv_sub.
    + unfold delete_account, bind, get. simpl.
      destruct (sessions st !! session_file n); simpl; [|done].
      intros m c Hm. by apply lookup_delete_Some in Hm as [_ Hm].
    + unfold delete_account, bind, get. simpl.
      destruct (sessions st !! session_file n); simpl; lia.
Qed.

(** X8. Pool invariant.  From a process that starts with an empty pool,
    whatever sequence of endpoint calls and background logins runs, every
    cached handle is an object the allocator has already handed out and no
    two account names share a handle object. *)
Theorem pool_invariant_reachable E A st0 st :
  clients st0 = ∅ ->
  rtc (step E A) st0 st ->
  (forall n cl, clients st !! n = Some cl -> obj_id cl < next_id st)
  /\ (forall m n c d,
        clients st !! m = Some c -> clients st !! n = Some d ->
        obj_id c = obj_id d -> m = n).
Proof.
  intros He Hrtc.
  assert (H0 : pool_inv st0).
  { split; [by apply pool_wf_empty|].
    intros m n c d Hm. by rewrite He, lookup_empty in Hm. }
  clear He. change (pool_inv st).
  induction Hrtc as [st|st1 st2 st3 Hstep _ IH]; [done|].
  apply IH. by apply (step_pool_inv E A st1).
Qed.

(** *** Backups, beyond the claims *)


(** X10. Whatever it returns or raises, [create_backup] changes nothing but
    the one file [backup_<timestamp>.zip] of the backup area, which holds a
    zip archive afterwards, whatever was under that name before; so a second
    backup within the same second replaces the first. *)
Theorem create_backup_only_writes_its_archive E ts st :
  sessions (create_backup E ts st).2 = sessions st
  /\ clients (create_backup E ts st).2 = clients st
  /\ accounts (create_backup E ts st).2 = accounts st
  /\ (forall f, f <> "backup_" +:+ ts +:+ ".zip" ->
        backups (create_backup E ts st).2 !! f = backups st !! f)
  /\ exists zf,
       backups (create_backup E ts st).2 !! ("backup_" +:+ ts +:+ ".zip")
       = Some (ZipOf zf).
Proof.
  destruct (create_backup_frame E ts st) as (Hc & Ha & Hs & _ & zf & Hb).
  split; [done|]. split; [done|]. split; [done|]. rewrite Hb. split.
  - intros f Hf. by apply lookup_insert_ne.
  - exists zf. apply lookup_insert_eq.
Qed.



(** *** Restores, beyond the claims *)










(** *** Deleting, beyond the claims *)

(** X17. After [delete_account n] has succeeded, a second [delete_account n]
    raises the 404 "Account not found", and [get_client n] raises the 404
    "Session n.json missing" whatever the environment: no handle of [n] is
    left to serve. *)
Theorem delete_account_then_gone st n blob :
  sessions st !! session_file n = Some blob ->
  exists r st',
    delete_account n st = (Return r, st')
    /\ delete_account n st' =
         (Raise (HTTPException 404 "Account not found"), st')
    /\ forall E,
         get_client E n st' =
           (Raise (HTTPException 404 ("Session " +:+ n +:+ ".json missing")), st').
Proof.
  intros Hs. unfold delete_account at 1. unfold bind, get. simpl. rewrite Hs. simpl.
  eexists _, _. split; [reflexivity|]. split.
  - unfold delete_account, bind, get. simpl. by rewrite lookup_delete_eq.
  - intros E. rewrite get_client_uncached by (simpl; apply lookup_delete_eq).
    apply build_client_missing. simpl. apply lookup_delete_eq.
Qed.

(** X18. Whether it succeeds or raises, [delete_account n] leaves every other
    account as it was: its session file, its cached handle and its entry of
    [accounts]; the backups are never touched. *)
Theorem delete_account_leaves_others st n m :
  m <> n ->
  sessions (delete_account n st).2 !! session_file m = sessions st !! session_file m
  /\ clients (delete_account n st).2 !! m = clients st !! m
  /\ accounts (delete_account n st).2 !! m = accounts st !! m
  /\ backups (delete_account n st).2 = backups st.
Proof.
  intros Hne. unfold delete_account, bind, get. simpl.
  destruct (sessions st !! session_file n); simpl; [|done].
  repeat split; apply lookup_delete_ne; [|done|done].
  intros Heq. apply session_file_inj in Heq. congruence.
Qed.

(** *** Creating accounts, beyond the claims *)

Lemma derived_name_avoids c e :
  c = "@"%char \/ c = "+"%char \/ c = "."%char ->
  occurs c (PyStr.map_chars normalize_char (local_part e)) = false.
Proof.
  intros Hc. induction e as [|a e IH]; [done|].
  cbn [local_part]. destruct (Ascii.eqb_spec a "@") as [->|Hat]; [done|].
  cbn [PyStr.map_chars occurs]. rewrite IH, orb_false_r.
  unfold normalize_char.
  destruct (Ascii.eqb_spec a "+") as [->|Hplus]; cbn [orb].
  { by destruct Hc as [->|[->| ->]]. }
  destruct (Ascii.eqb_spec a ".") as [->|Hdot].
  { by destruct Hc as [->|[->| ->]]. }
  apply Ascii.eqb_neq. by destruct Hc as [->|[->| ->]].
Qed.

(** X19. An explicit, non-empty name is taken as it is, without any
    normalisation; an explicit empty name counts as no name and the name is
    derived from the email. *)
Theorem add_account_explicit_name E req :
  (forall n, name req = Some n -> n <> "" ->
     account_name_of (add_account E req).1 = n)
  /\ (name req = Some "" ->
      account_name_of (add_account E req).1
      = PyStr.map_chars normalize_char (local_part (email req))).
Proof.
  split.
  - intros n Hn Hne. simpl. unfold derive_name. rewrite Hn.
    by destruct (String.eqb_spec n "").
  - intros Hn. cbn [add_account fst account_name_of]. unfold derive_name.
    rewrite Hn. cbn [String.eqb].
    exact (derive_name_no_name (mkAddAccount (email req) "" None None) eq_refl).
Qed.

(** X20. A derived name contains no ['@'], no ['+'] and no ['.']. *)
Theorem add_account_derived_name_is_plain E req :
  name req = None ->
  occurs "@" (account_name_of (add_account E req).1) = false
  /\ occurs "+" (account_name_of (add_account E req).1) = false
  /\ occurs "." (account_name_of (add_account E req).1) = false.
Proof.
  intros Hn. simpl. rewrite (derive_name_no_name req Hn).
  repeat split; apply derived_name_avoids; auto.
Qed.






(** X23. A successful login does not refresh the pool: when a handle of [n]
    is cached and answers its probe, [get_client n] keeps returning that
    handle after [create_session] has run for [n], whatever session the new
    login dumped. *)
Theorem create_session_keeps_live_handle E req n now st old :
  clients st !! n = Some old ->
  get_timeline_feed E old = None ->
  get_client E n (create_session E req n now st).2
  = (Return old, (create_session E req n now st).2).
Proof.
  intros Hc Hp. destruct (create_session_frame E req n now st) as (Hcl & _ & _).
  unfold get_client, bind, get. simpl. rewrite Hcl, Hc.
  unfold try_except, probe, bind. by rewrite Hp.
Qed.


(** *** The biography preview and the profile picture *)

Lemma codepoints_app a b : codepoints (a +:+ b) = codepoints a + codepoints b.
Proof.
  induction a as [|c a IH]; [done|].
  change (String c a +:+ b) with (String c (a +:+ b)).
  cbn [codepoints]. rewrite IH. lia.
Qed.

Lemma codepoints_take s : forall n,
  codepoints (str_take n s) = Nat.min n (codepoints s).
Proof.
  induction s as [|c s IH]; intros n; cbn [str_take codepoints]; [lia|].
  destruct (is_continuation c) eqn:Hc.
  - cbn [codepoints]. rewrite Hc, IH. lia.
  - destruct n as [|k]; [done|]. cbn [codepoints]. rewrite Hc, IH. lia.
Qed.

Lemma str_take_all s : forall n, codepoints s <= n -> str_take n s = s.
Proof.
  induction s as [|c s IH]; intros n; cbn [str_take codepoints]; [done|].
  destruct (is_continuation c).
  - intros Hl. rewrite IH; [done|lia].
  - destruct n as [|k]; [lia|]. intros Hl. rewrite IH; [done|lia].
Qed.

(** X25. The biography shown by [list_accounts] is empty for an empty
    biography and otherwise the first 100 characters followed by ["..."]:
    at most 103 characters, exactly 103 for a biography of 100 characters or
    more, and the dots are appended to a short biography too.  Characters
    are counted as Python counts them, not bytes. *)
Theorem bio_preview_bounds b :
  codepoints (bio_preview b) <= 103
  /\ (b = "" -> bio_preview b = "")
  /\ (b <> "" -> codepoints b <= 100 -> bio_preview b = b +:+ "...")
  /\ (b <> "" -> 100 <= codepoints b -> codepoints (bio_preview b) = 103).
Proof.
  unfold bio_preview. destruct (String.eqb_spec b "") as [->|Hne].
  - split; [apply Nat.le_0_l|]. split; [done|]. split; by intros [].
  - rewrite codepoints_app, codepoints_take.
    change (codepoints "...") with 3.
    split; [lia|]. split; [done|]. split.
    + intros _ Hl. by rewrite str_take_all.
    + intros _ Hl. lia.
Qed.



(** X27. A session file that the library cannot load makes [get_client]
    raise, and nothing is cached for the account: a handle that failed its
    probe has been evicted and is not put back. *)
Theorem get_client_load_failure E st n blob :
  not_served E st n ->
  sessions st !! session_file n = Some blob ->
  read_ok E (session_file n) = false \/ json_ok E blob = false ->
  exists e st',
    get_client E n st = (Raise e, st')
    /\ clients st' !! n = None
    /\ sessions st' = sessions st.
Proof.
  intros Hns Hs Hbad.
  pose proof (get_client_pool_step E st n) as (Hs' & _).
  destruct (get_client_unloadable E st n blob Hns Hs Hbad) as (e & st' & Hg & Hc).
  exists e, st'. rewrite Hg in Hs'. done.
Qed.

(** *** The names of the session directory *)










(** ** Concrete runs of the further properties *)

Lemma get_client_serves_live_handle_witness :
  sessions st_stale !! session_file "bob" = None
  /\ get_client E_calm "bob" st_stale = (Return bob_handle, st_stale).
Proof.
  split; [reflexivity|].
  apply (get_client_serves_live_handle E_calm st_stale "bob" bob_handle);
    reflexivity.
Defined.

Lemma get_client_twice_same_handle_witness :
  exists cl st1,
    get_client E_calm "bob" st_fresh = (Return cl, st1)
    /\ obj_id cl = next_id st_fresh
    /\ get_client E_calm "bob" st1 = (Return cl, st1).
Proof.
  apply (get_client_twice_same_handle E_calm st_fresh "bob" [x7b; x7d]);
    [vm_compute; exact I|reflexivity..].
Defined.

Lemma list_accounts_active_is_cached_witness :
  is_Some (clients
             (mkState {["bob" := built_client st_fresh "bob" [x7b; x7d]]} ∅
                      {["bob.json" := [x7b; x7d]]} ∅ 1) !! "bob").
Proof.
  apply (list_accounts_active_is_cached E_calm A_calm st_fresh
           (mkListResponse 1 {["bob" := Active "bob" 10 20 3 "hello..."]})
           _ "bob" "bob" 10 20 3 "hello...")%Z.
  - vm_compute. reflexivity.
  - vm_compute. reflexivity.
Defined.


Lemma pool_invariant_reachable_witness :
  pool_inv (get_client E_calm "bob" st_fresh).2.
Proof.
  apply (pool_invariant_reachable E_calm A_calm st_fresh
           (get_client E_calm "bob" st_fresh).2).
  - reflexivity.
  - apply rtc_once. apply step_get_client.
Defined.

Lemma session_names_lists_plain_name_witness :
  "bob" ∈ session_names (sessions st_fresh).
Proof.
  apply (session_names_lists_plain_name (sessions st_fresh) "bob" [x7b; x7d]);
    reflexivity.
Defined.







Lemma delete_account_then_gone_witness :
  exists r st',
    delete_account "bob" st_cached = (Return r, st')
    /\ delete_account "bob" st' =
         (Raise (HTTPException 404 "Account not found"), st').
Proof.
  destruct (delete_account_then_gone st_cached "bob" [x7b; x7d] eq_refl)
    as (r & st' & Hd & Hd' & _).
  exists r, st'. exact (conj Hd Hd').
Defined.

Lemma delete_account_leaves_others_witness :
  clients (delete_account "alice" st_cached).2 !! "bob" = clients st_cached !! "bob".
Proof.
  destruct (delete_account_leaves_others st_cached "alice" "bob") as (_ & Hc & _).
  - discriminate.
  - exact Hc.
Defined.

Lemma add_account_derived_name_is_plain_witness :
  occurs "." (account_name_of (add_account E_calm req_alice).1) = false.
Proof.
  apply (add_account_derived_name_is_plain E_calm req_alice eq_refl).
Defined.



Lemma create_session_keeps_live_handle_witness :
  get_client E_login "bob"
    (create_session E_login req_alice "bob" "2024-01-01T12:00:00" st_cached).2
  = (Return bob_handle,
     (create_session E_login req_alice "bob" "2024-01-01T12:00:00" st_cached).2).
Proof.
  apply (create_session_keeps_live_handle E_login req_alice "bob"
           "2024-01-01T12:00:00" st_cached bob_handle); reflexivity.
Defined.


Lemma get_client_load_failure_witness :
  exists e st',
    get_client E_garbled "bob" st_fresh = (Raise e, st')
    /\ clients st' !! "bob" = None.
Proof.
  destruct (get_client_load_failure E_garbled st_fresh "bob" [x7b; x7d])
    as (e & st' & Hg & Hc & _).
  - vm_compute. exact I.
  - reflexivity.
  - right. reflexivity.
  - exists e, st'. exact (conj Hg Hc).
Defined.


